(** * Healthcare Companion: session lifecycle around a streaming chat

    A shallow embedding of [healthcare.py]: the cached client factory
    [get_gemini_client], the session reset [reset_chat], the transcript
    display loop and the chat input handler, over an explicit model of
    Streamlit's session state, the configured secrets and the rendered
    output.  The hosted model service is a parameter of the development. *)

From stdpp Require Import base option list strings gmap.

(** ** Constants of the module *)

Definition SYSTEM_INSTRUCTION : string := "
You are a helpful, friendly, and **strictly non-diagnostic** Healthcare Companion AI.
Your purpose is to provide general, educational, and organizational health information.

RULES TO STRICTLY FOLLOW:
1.  **NEVER** provide a medical diagnosis, personalized treatment plan, or specific medical advice.
2.  **ALWAYS** preface your response with a strong safety disclaimer.
3.  **DO** encourage the user to consult a qualified healthcare professional (doctor, nurse, or pharmacist) for any symptoms or medical concerns.
4.  **DO** offer reliable, factual, general health information.
".

Definition MODEL_NAME : string := "gemini-2.5-flash".

Definition APP_TITLE : string := "🩺 Healthcare Companion".

Definition API_KEY_NAME : string := "GEMINI_API_KEY".

Definition WELCOME_TEXT : string :=
  "**Welcome!** I'm your informational **Healthcare Companion**. I can provide general health facts and tips, but **I am not a doctor**. Please consult a healthcare professional for any medical concerns.".

Definition NO_KEY_TEXT : string :=
  "❌ API Key not found. Please set your GEMINI_API_KEY in `.streamlit/secrets.toml`.".

Definition CLIENT_ERROR_PREFIX : string := "❌ Error initializing Gemini Client: ".

Definition RESET_FAILED_TEXT : string :=
  "Cannot reset chat: Gemini client failed to initialize.".

Definition STREAM_ERROR_PREFIX : string :=
  "An error occurred: Chat failed to connect or process the request. Details: ".

Definition NOT_INITIALIZED_TEXT : string :=
  "The companion could not be initialized. Please refresh the page and check your API key.".

Definition CURSOR : string := "▌".

(** ** Data *)

(** Objects handed out by the model service are opaque; they are told
    apart by identity. *)
Inductive Client := client_obj (id : nat).
Inductive Chat := chat_obj (id : nat).

(** A transcript entry, the dict [{"role": ..., "content": ...}]. *)
Record Message := { role : string; content : string }.

(** Modelled from the spec: a chunk is one fragment of text of a streamed
    reply; the class itself belongs to the service library.  The handler
    reads [chunk.text]. *)
Record Chunk := { text : string }.

(** What a Python statement can raise here.  [Exception] stands for any
    subclass of [Exception] with [str(e) = detail]; [AttributeError] is the
    one raised by [st.session_state.<attr>] on an attribute never set (its
    message is abridged in [str]); [RerunException] is Streamlit's
    script-control signal raised by [st.rerun()], which is not an
    [Exception]. *)
Inductive exc :=
  | Exception (detail : string)
  | AttributeError (attr : string)
  | RerunException.

Definition is_Exception (e : exc) : bool :=
  match e with
  | Exception _ | AttributeError _ => true
  | RerunException => false
  end.

Definition str (e : exc) : string :=
  match e with
  | Exception detail => detail
  | AttributeError attr =>
      "st.session_state has no attribute " +:+ attr
  | RerunException => ""
  end.

(** Modelled from the spec: the iterator returned by
    [send_message_stream] is a lazy, finite sequence of chunks, ended by
    exhaustion or by a failure raised in the middle.  The failure is an
    [Exception] of the service library with [str(e) = detail]; one raised
    by the call itself is a stream that fails before its first chunk. *)
Inductive stream :=
  | StopIteration
  | StreamError (detail : string)
  | Yield (chunk : Chunk) (rest : stream).

(** The stream that yields [chunks] in order and then ends as [finish]. *)
Definition stream_of (chunks : list Chunk) (finish : stream) : stream :=
  foldr Yield finish chunks.

(** A call into the service library returns an object or raises an
    [Exception] with the given detail. *)
Inductive call (A : Type) :=
  | Returned (a : A)
  | Failed (detail : string).
Arguments Returned {A} a.
Arguments Failed {A} detail.

(** The hosted service, as far as this module uses it. *)
Record Service := {
  genai_Client : string -> call Client;
  chats_create : Client -> string -> string -> call Chat;
  send_message_stream : Chat -> string -> stream
}.

(** What the run has shown on the page and asked of the service, oldest
    first. *)
Inductive event :=
  | ev_page (element : string)
  | ev_error (msg : string)
  | ev_chat_markdown (role body : string)
  | ev_placeholder (body : string)
  | ev_Client (api_key : string)
  | ev_chats_create (client : Client) (model system_instruction : string)
  | ev_send_message_stream (chat : Chat) (prompt : string).

Definition is_stream_call (e : event) : bool :=
  match e with
  | ev_send_message_stream _ _ => true
  | _ => false
  end.

Definition is_service_call (e : event) : bool :=
  match e with
  | ev_Client _ | ev_chats_create _ _ _ | ev_send_message_stream _ _ => true
  | _ => false
  end.

(** [st.session_state]: the three keys the module ever sets; [None] is a
    key that is not in the session state. *)
Record SessionState := {
  gemini_client : option Client;
  gemini_chat : option Chat;
  messages : option (list Message)
}.

Definition empty_session : SessionState :=
  {| gemini_client := None; gemini_chat := None; messages := None |}.

Record World := {
  session_state : SessionState;
  secrets : gmap string string;
  trace : list event
}.

(** ** Statements as state transformers that may raise *)

Inductive outcome (A : Type) :=
  | Returns (a : A)
  | Raises (e : exc).
Arguments Returns {A} a.
Arguments Raises {A} e.

Definition M (A : Type) : Type := World -> outcome A * World.

Definition ret {A} (a : A) : M A := fun w => (Returns a, w).

Definition bind {A B} (m : M A) (k : A -> M B) : M B :=
  fun w =>
    match m w with
    | (Returns a, w') => k a w'
    | (Raises e, w') => (Raises e, w')
    end.

Definition raise {A} (e : exc) : M A := fun w => (Raises e, w).

(** [try: body except Exception as e: handler(e)]. *)
Definition try_except {A} (body : M A) (handler : exc -> M A) : M A :=
  fun w =>
    match body w with
    | (Returns a, w') => (Returns a, w')
    | (Raises e, w') =>
        if is_Exception e then handler e w' else (Raises e, w')
    end.

Notation "'let!' x ':=' m 'in' k" := (bind m (fun x => k))
  (at level 10, x name, m at level 100, k at level 200).
Notation "m ;; k" := (bind m (fun _ => k))
  (at level 100, k at level 200, right associativity).

Definition emit (e : event) : M unit :=
  fun w =>
    (Returns tt,
     {| session_state := session_state w;
        secrets := secrets w;
        trace := trace w ++ [e] |}).

Definition get_session : M SessionState := fun w => (Returns (session_state w), w).

Definition get_secrets : M (gmap string string) := fun w => (Returns (secrets w), w).

Definition put_session (s : SessionState) : M unit :=
  fun w =>
    (Returns tt,
     {| session_state := s; secrets := secrets w; trace := trace w |}).

Fixpoint for_each {A} (l : list A) (body : A -> M unit) : M unit :=
  match l with
  | [] => ret tt
  | x :: l' => body x ;; for_each l' body
  end.

(** ** The program *)

Section Program.

Variable service : Service.

(** [st.error(msg)] *)
Definition st_error (msg : string) : M unit := emit (ev_error msg).

(** [genai.Client(api_key=key)] *)
Definition new_Client (key : string) : M Client :=
  emit (ev_Client key) ;;
  match genai_Client service key with
  | Returned client => ret client
  | Failed detail => raise (Exception detail)
  end.

(** [client.chats.create(model=model, config=config)], where the config
    carries the system instruction only. *)
Definition client_chats_create (client : Client) (model config : string) : M Chat :=
  emit (ev_chats_create client model config) ;;
  match chats_create service client model config with
  | Returned chat => ret chat
  | Failed detail => raise (Exception detail)
  end.

(** [st.session_state['gemini_client'] = client] *)
Definition set_gemini_client (client : Client) : M unit :=
  let! s := get_session in
  put_session {| gemini_client := Some client;
                 gemini_chat := gemini_chat s;
                 messages := messages s |}.

(** [st.session_state['gemini_chat'] = chat] *)
Definition set_gemini_chat (chat : Chat) : M unit :=
  let! s := get_session in
  put_session {| gemini_client := gemini_client s;
                 gemini_chat := Some chat;
                 messages := messages s |}.

(** [st.session_state.messages = msgs] *)
Definition set_messages (msgs : list Message) : M unit :=
  let! s := get_session in
  put_session {| gemini_client := gemini_client s;
                 gemini_chat := gemini_chat s;
                 messages := Some msgs |}.

(** Reading [st.session_state.messages]; Streamlit raises [AttributeError]
    for an attribute that was never set. *)
Definition get_messages : M (list Message) :=
  let! s := get_session in
  match messages s with
  | Some msgs => ret msgs
  | None => raise (AttributeError "messages")
  end.

(** [st.session_state.messages.append(m)] *)
Definition messages_append (m : Message) : M unit :=
  let! msgs := get_messages in
  set_messages (msgs ++ [m]).

(** [st.rerun()] ends the run with Streamlit's control signal. *)
Definition st_rerun : M unit := raise RerunException.

Definition get_gemini_client : M (option Client) :=
  let! s := get_session in
  match gemini_client s with
  | Some client => ret (Some client)
  | None =>
      let! conf := get_secrets in
      match conf !! API_KEY_NAME with
      | None =>
          st_error NO_KEY_TEXT ;;
          ret None
      | Some key =>
          try_except
            (let! client := new_Client key in
             set_gemini_client client ;;
             ret (Some client))
            (fun e =>
               st_error (CLIENT_ERROR_PREFIX +:+ str e) ;;
               ret None)
      end
  end.

Definition welcome : Message :=
  {| role := "assistant"; content := WELCOME_TEXT |}.

Definition reset_chat : M unit :=
  let! client := get_gemini_client in
  match client with
  | None =>
      st_error RESET_FAILED_TEXT ;;
      ret tt
  | Some client =>
      let config := SYSTEM_INSTRUCTION in
      let! chat := client_chats_create client MODEL_NAME config in
      set_gemini_chat chat ;;
      set_messages [welcome] ;;
      st_rerun
  end.

(** [with st.chat_message(role): st.markdown(body)] *)
Definition chat_message_markdown (role body : string) : M unit :=
  emit (ev_chat_markdown role body).

(** [message_placeholder.markdown(body)] *)
Definition placeholder_markdown (body : string) : M unit :=
  emit (ev_placeholder body).

(** [st.session_state['gemini_chat'].send_message_stream(prompt)] *)
Definition chat_send_message_stream (chat : Chat) (prompt : string) : M stream :=
  emit (ev_send_message_stream chat prompt) ;;
  ret (send_message_stream service chat prompt).

(** The loop [for chunk in response_stream], started with the text
    accumulated so far; it returns the accumulated text when the stream is
    exhausted and raises where the stream does. *)
Fixpoint consume (response_stream : stream) (full_response : string) : M string :=
  match response_stream with
  | StopIteration => ret full_response
  | StreamError detail => raise (Exception detail)
  | Yield chunk rest =>
      let full_response := full_response +:+ text chunk in
      placeholder_markdown (full_response +:+ CURSOR) ;;
      consume rest full_response
  end.

(** The body of [if prompt := st.chat_input(...)], for a submitted
    [prompt]. *)
Definition handle_user_message (prompt : string) : M unit :=
  messages_append {| role := "user"; content := prompt |} ;;
  chat_message_markdown "user" prompt ;;
  let! s := get_session in
  let! full_response :=
    match gemini_chat s with
    | Some chat =>
        try_except
          (let! response_stream := chat_send_message_stream chat prompt in
           let! full_response := consume response_stream "" in
           placeholder_markdown full_response ;;
           ret full_response)
          (fun e =>
             let full_response := STREAM_ERROR_PREFIX +:+ str e in
             placeholder_markdown full_response ;;
             ret full_response)
    | None =>
        let full_response := NOT_INITIALIZED_TEXT in
        placeholder_markdown full_response ;;
        ret full_response
    end in
  messages_append {| role := "assistant"; content := full_response |}.

(** The loop that displays the chat history. *)
Definition display_history : M unit :=
  let! msgs := get_messages in
  for_each msgs (fun message => chat_message_markdown (role message) (content message)).

(** Python's truth value of a string. *)
Definition truthy (s : string) : bool :=
  match s with
  | EmptyString => false
  | _ => true
  end.

(** One run of the script, top to bottom; [chat_input] is what
    [st.chat_input] returns in this run.  The page header, the disclaimer
    and the sidebar only show fixed elements; the sidebar button's
    callback is [reset_chat] itself. *)
Definition script (chat_input : option string) : M unit :=
  emit (ev_page "page_config") ;;
  emit (ev_page "title") ;;
  let! s := get_session in
  match gemini_chat s with
  | None => reset_chat
  | Some _ => ret tt
  end ;;
  emit (ev_page "disclaimer") ;;
  emit (ev_page "sidebar") ;;
  display_history ;;
  match chat_input with
  | Some prompt => if truthy prompt then handle_user_message prompt else ret tt
  | None => ret tt
  end.

(** The world after [n] calls of [get_gemini_client] in a row. *)
Fixpoint after_calls (n : nat) (w : World) : World :=
  match n with
  | 0 => w
  | S n' => after_calls n' (snd (get_gemini_client w))
  end.

(** The worlds a session reaches from [w]: by runs of the script, and by
    clicks on the sidebar button, which call [reset_chat]. *)
Inductive reaches (w : World) : World -> Prop :=
  | reaches_refl : reaches w w
  | reaches_run w1 chat_input :
      reaches w w1 -> reaches w (snd (script chat_input w1))
  | reaches_click w1 :
      reaches w w1 -> reaches w (snd (reset_chat w1)).

End Program.

(** ** Worlds that differ by what was shown *)

(** [w] after the events [evs] have been added to its trace. *)
Definition extend (w : World) (evs : list event) : World :=
  {| session_state := session_state w;
     secrets := secrets w;
     trace := trace w ++ evs |}.

(** [w] with another session state. *)
Definition with_session (s : SessionState) (w : World) : World :=
  {| session_state := s; secrets := secrets w; trace := trace w |}.

(** [w] with another configuration. *)
Definition with_secrets (conf : gmap string string) (w : World) : World :=
  {| session_state := session_state w; secrets := conf; trace := trace w |}.

(** [s] with another transcript. *)
Definition with_messages (msgs : list Message) (s : SessionState) : SessionState :=
  {| gemini_client := gemini_client s;
     gemini_chat := gemini_chat s;
     messages := Some msgs |}.

(** Python's [sep.join] with the empty separator, over the chunk texts. *)
Definition join_texts (chunks : list Chunk) : string :=
  foldr (fun chunk rest => text chunk +:+ rest) "" chunks.

(** What the streaming loop shows while it consumes [chunks], having
    accumulated [acc] before. *)
Fixpoint renders (acc : string) (chunks : list Chunk) : list event :=
  match chunks with
  | [] => []
  | chunk :: rest =>
      ev_placeholder ((acc +:+ text chunk) +:+ CURSOR) :: renders (acc +:+ text chunk) rest
  end.

Definition user_message (prompt : string) : Message :=
  {| role := "user"; content := prompt |}.

Definition assistant_message (body : string) : Message :=
  {| role := "assistant"; content := body |}.

(** [s] with a cached client. *)
Definition with_client (client : Client) (s : SessionState) : SessionState :=
  {| gemini_client := Some client;
     gemini_chat := gemini_chat s;
     messages := messages s |}.

(** The session state a completed reset leaves. *)
Definition fresh_session (client : option Client) (chat : Chat) : SessionState :=
  {| gemini_client := client;
     gemini_chat := Some chat;
     messages := Some [welcome] |}.

(** What a turn adds to the transcript. *)
Definition turn (prompt reply : string) : list Message :=
  [user_message prompt; assistant_message reply].

(** The world after a turn that started in [w] with transcript [msgs],
    showed [shown] after the user's message and sealed [reply]. *)
Definition after_turn (w : World) (msgs : list Message) (prompt reply : string)
    (shown : list event) : World :=
  extend
    (with_session (with_messages (msgs ++ turn prompt reply) (session_state w)) w)
    (ev_chat_markdown "user" prompt :: shown).

(** What the history loop shows for the transcript [msgs]. *)
Definition shown_history (msgs : list Message) : list event :=
  map (fun message => ev_chat_markdown (role message) (content message)) msgs.

(** A transcript is only ever there together with a chat. *)
Definition consistent (s : SessionState) : Prop :=
  is_Some (messages s) -> is_Some (gemini_chat s).

(** ** Sample services and worlds *)

Definition fever_chunks : list Chunk :=
  [ {| text := "A fever is " |}; {| text := "a rise in body temperature." |} ].

(** A service that answers every prompt with the two fever chunks. *)
Definition answering_service : Service :=
  {| genai_Client := fun _ => Returned (client_obj 1);
     chats_create := fun _ _ _ => Returned (chat_obj 1);
     send_message_stream := fun _ _ => stream_of fever_chunks StopIteration |}.

(** A service whose streams break after the first chunk and which
    refuses to open chats. *)
Definition breaking_service : Service :=
  {| genai_Client := fun _ => Returned (client_obj 1);
     chats_create := fun _ _ _ => Failed "429 RESOURCE_EXHAUSTED";
     send_message_stream := fun _ _ =>
       stream_of [ {| text := "A fever is " |} ] (StreamError "503 UNAVAILABLE") |}.

(** A new browser session under the configuration [conf]. *)
Definition fresh_world (conf : gmap string string) : World :=
  {| session_state := empty_session; secrets := conf; trace := [] |}.

Definition with_key : gmap string string := {[ API_KEY_NAME := "secret" ]}.

(** A session after its first successful reset. *)
Definition chatting_world : World :=
  {| session_state := fresh_session (Some (client_obj 1)) (chat_obj 1);
     secrets := with_key;
     trace := [] |}.

(** A session that holds a transcript but neither client nor chat, under
    a configuration without the key. *)
Definition chatless_world : World :=
  {| session_state :=
       {| gemini_client := None;
          gemini_chat := None;
          messages := Some [welcome] |};
     secrets := ∅;
     trace := [] |}.

(** ** Streams as what they yield and how they end *)

(** The chunks a stream yields before it ends. *)
Fixpoint chunks_of (s : stream) : list Chunk :=
  match s with
  | StopIteration | StreamError _ => []
  | Yield chunk rest => chunk :: chunks_of rest
  end.

(** The detail of the failure that ends a stream, if one does. *)
Fixpoint failure_of (s : stream) : option string :=
  match s with
  | StopIteration => None
  | StreamError detail => Some detail
  | Yield _ rest => failure_of rest
  end.

(** The text a turn seals for a stream: the joined chunks when the stream
    is exhausted, the error text when it fails. *)
Definition sealed_text (s : stream) : string :=
  match failure_of s with
  | None => join_texts (chunks_of s)
  | Some detail => STREAM_ERROR_PREFIX +:+ detail
  end.

(** What the assistant's placeholder shows during a turn on the stream
    [s]: each growing prefix with the cursor, then the sealed text. *)
Definition stream_shown (s : stream) : list event :=
  renders "" (chunks_of s) ++ [ev_placeholder (sealed_text s)].

(** The entries a session with the chat [chat] adds for the prompts
    [prompts], turn after turn. *)
Definition turns_for (service : Service) (chat : Chat) (prompts : list string)
    : list Message :=
  flat_map
    (fun prompt => turn prompt (sealed_text (send_message_stream service chat prompt)))
    prompts.

(** The fixed elements a run shows before and after its reset check. *)
Definition page_top : list event := [ev_page "page_config"; ev_page "title"].
Definition page_frame : list event := [ev_page "disclaimer"; ev_page "sidebar"].

(** A transcript made of the welcome message and complete turns, each a
    user entry followed by an assistant entry. *)
Definition conversation (turns : list (string * string)) : list Message :=
  welcome :: flat_map (fun t => turn (fst t) (snd t)) turns.

(** The shape of the session state the script maintains: chat and
    transcript are there together, with a client, and the transcript is a
    conversation. *)
Definition well_formed (s : SessionState) : Prop :=
  match messages s with
  | None => gemini_chat s = None
  | Some msgs =>
      is_Some (gemini_chat s) /\ is_Some (gemini_client s) /\
      exists turns, msgs = conversation turns
  end.

(** The requests and outputs the module allows itself under the
    configuration [conf]: a client is constructed only with the configured
    key, a chat is created only with the module's model and system
    instruction. *)
Definition permitted (conf : gmap string string) (e : event) : Prop :=
  match e with
  | ev_Client key => conf !! API_KEY_NAME = Some key
  | ev_chats_create _ model system_instruction =>
      model = MODEL_NAME /\ system_instruction = SYSTEM_INSTRUCTION
  | _ => True
  end.

(** A statement that, however it ends, only adds to the output, adds
    only events that [P] allows under the configuration, and leaves the
    configuration alone. *)
Definition only_adds {A} (P : gmap string string -> event -> Prop) (m : M A) : Prop :=
  forall w, exists evs,
    trace (snd (m w)) = trace w ++ evs /\ Forall (P (secrets w)) evs /\
    secrets (snd (m w)) = secrets w.

(** ** More sample services and worlds *)

(** A service that refuses every key. *)
Definition refusing_service : Service :=
  {| genai_Client := fun _ => Failed "API key not valid";
     chats_create := fun _ _ _ => Returned (chat_obj 1);
     send_message_stream := fun _ _ => StopIteration |}.

(** A session in the middle of a conversation whose configuration has
    lost the key. *)
Definition keyless_conversation : World :=
  {| session_state :=
       {| gemini_client := Some (client_obj 1);
          gemini_chat := Some (chat_obj 7);
          messages :=
            Some (conversation [("What is a fever?", "A fever is a rise in body temperature.")]) |};
     secrets := ∅;
     trace := [] |}.

(** A service whose stream breaks for one question and answers the
    others. *)
Definition moody_service : Service :=
  {| genai_Client := fun _ => Returned (client_obj 1);
     chats_create := fun _ _ _ => Returned (chat_obj 1);
     send_message_stream := fun _ prompt =>
       if String.eqb prompt "What is a cough?"
       then stream_of [ {| text := "A cough" |} ] (StreamError "503 UNAVAILABLE")
       else stream_of fever_chunks StopIteration |}.

(** ** Proof steps *)

(** Unfolds the statements of the program down to functions on worlds. *)
Ltac unfold_steps :=
  unfold messages_append, get_messages, set_messages, set_gemini_chat,
    set_gemini_client, chat_message_markdown, placeholder_markdown,
    chat_send_message_stream, new_Client, client_chats_create,
    st_error, st_rerun, bind, ret, raise, try_except, emit, get_session,
    get_secrets, put_session in *.

(** * Properties *)

(** ** Worlds, strings and streams *)

Lemma extend_nil w : extend w [] = w.
Proof. destruct w; unfold extend; simpl. by rewrite app_nil_r. Qed.

Lemma extend_extend w evs1 evs2 :
  extend (extend w evs1) evs2 = extend w (evs1 ++ evs2).
Proof. unfold extend; simpl. by rewrite app_assoc. Qed.

Lemma append_assoc (a b c : string) : (a +:+ b) +:+ c = a +:+ (b +:+ c).
Proof.
  induction a as [|x a IH]; [done|].
  change (String x ((a +:+ b) +:+ c) = String x (a +:+ (b +:+ c))).
  by f_equal.
Qed.

Lemma append_empty_r (a : string) : a +:+ "" = a.
Proof.
  induction a as [|x a IH]; [done|].
  change (String x (a +:+ "") = String x a). by f_equal.
Qed.

Lemma join_texts_app chunks1 chunks2 :
  join_texts (chunks1 ++ chunks2) = join_texts chunks1 +:+ join_texts chunks2.
Proof.
  induction chunks1 as [|c chunks1 IH]; [done|].
  change (text c +:+ join_texts (chunks1 ++ chunks2) =
          (text c +:+ join_texts chunks1) +:+ join_texts chunks2).
  by rewrite IH, append_assoc.
Qed.

Lemma renders_length acc chunks : length (renders acc chunks) = length chunks.
Proof. revert acc. induction chunks as [|c chunks IH]; intros acc; simpl; auto. Qed.

Lemma renders_no_service_call acc chunks :
  existsb is_service_call (renders acc chunks) = false.
Proof. revert acc. induction chunks as [|c chunks IH]; intros acc; simpl; auto. Qed.

(** Running a sequence one statement at a time. *)
Lemma bind_returns {A B} (m : M A) (k : A -> M B) w a w' :
  m w = (Returns a, w') -> bind m k w = k a w'.
Proof. intros H. unfold bind. by rewrite H. Qed.

Lemma bind_raises {A B} (m : M A) (k : A -> M B) w e w' :
  m w = (Raises e, w') -> bind m k w = (Raises e, w').
Proof. intros H. unfold bind. by rewrite H. Qed.

Lemma emit_extend e w : emit e w = (Returns tt, extend w [e]).
Proof. reflexivity. Qed.

Section Streaming.

Variable service : Service.

(** The loop consumes the chunks of a stream in order: it shows each
    growing prefix with the cursor and goes on with what ends the stream. *)
Lemma consume_stream_of chunks finish acc w :
  consume (stream_of chunks finish) acc w =
  consume finish (acc +:+ join_texts chunks) (extend w (renders acc chunks)).
Proof.
  revert acc w. induction chunks as [|c chunks IH]; intros acc w; simpl.
  - by rewrite append_empty_r, extend_nil.
  - unfold_steps. fold (extend w [ev_placeholder ((acc +:+ text c) +:+ CURSOR)]).
    rewrite IH, extend_extend. simpl. by rewrite append_assoc.
Qed.

(** Every stream is the chunks it yields followed by its end. *)
Lemma stream_chunks (s : stream) :
  exists chunks, s = stream_of chunks StopIteration \/
                 exists detail, s = stream_of chunks (StreamError detail).
Proof.
  induction s as [|detail|c rest [chunks IH]].
  - exists []. by left.
  - exists []. right. by exists detail.
  - exists (c :: chunks). destruct IH as [->|[detail ->]]; [by left|].
    right. by exists detail.
Qed.

End Streaming.

(** ** The chat input handler *)

Section Handler.

Variable service : Service.

Lemma after_turn_messages w msgs prompt reply shown :
  messages (session_state (after_turn w msgs prompt reply shown)) =
  Some (msgs ++ turn prompt reply).
Proof. reflexivity. Qed.

Lemma after_turn_trace w msgs prompt reply shown :
  trace (after_turn w msgs prompt reply shown) =
  trace w ++ ev_chat_markdown "user" prompt :: shown.
Proof. reflexivity. Qed.

(** Active chat, stream exhausted normally. *)
Lemma handle_stream_completed prompt chunks w chat msgs :
  gemini_chat (session_state w) = Some chat ->
  messages (session_state w) = Some msgs ->
  send_message_stream service chat prompt = stream_of chunks StopIteration ->
  handle_user_message service prompt w =
    (Returns tt,
     after_turn w msgs prompt (join_texts chunks)
       (ev_send_message_stream chat prompt
          :: renders "" chunks ++ [ev_placeholder (join_texts chunks)])).
Proof.
  intros Hchat Hmsgs Hstream. destruct w as [[cl ch ms] conf tr]; simpl in *; subst.
  unfold handle_user_message. unfold_steps. simpl. rewrite Hstream.
  rewrite consume_stream_of. simpl.
  unfold after_turn, extend, with_session, with_messages, turn; simpl.
  do 2 f_equal.
  - by rewrite <- app_assoc.
  - by rewrite <- !app_assoc.
Qed.

(** Active chat, stream failing after the chunks it yielded. *)
Lemma handle_stream_failed prompt chunks detail w chat msgs :
  gemini_chat (session_state w) = Some chat ->
  messages (session_state w) = Some msgs ->
  send_message_stream service chat prompt = stream_of chunks (StreamError detail) ->
  handle_user_message service prompt w =
    (Returns tt,
     after_turn w msgs prompt (STREAM_ERROR_PREFIX +:+ detail)
       (ev_send_message_stream chat prompt
          :: renders "" chunks ++ [ev_placeholder (STREAM_ERROR_PREFIX +:+ detail)])).
Proof.
  intros Hchat Hmsgs Hstream. destruct w as [[cl ch ms] conf tr]; simpl in *; subst.
  unfold handle_user_message. unfold_steps. simpl. rewrite Hstream.
  rewrite consume_stream_of. simpl.
  unfold after_turn, extend, with_session, with_messages, turn; simpl.
  do 2 f_equal.
  - by rewrite <- app_assoc.
  - by rewrite <- !app_assoc.
Qed.

(** No active chat. *)
Lemma handle_without_chat prompt w msgs :
  gemini_chat (session_state w) = None ->
  messages (session_state w) = Some msgs ->
  handle_user_message service prompt w =
    (Returns tt,
     after_turn w msgs prompt NOT_INITIALIZED_TEXT [ev_placeholder NOT_INITIALIZED_TEXT]).
Proof.
  intros Hchat Hmsgs. destruct w as [[cl ch ms] conf tr]; simpl in *; subst.
  unfold handle_user_message. unfold_steps. simpl.
  unfold after_turn, extend, with_session, with_messages, turn; simpl.
  do 2 f_equal.
  - by rewrite <- app_assoc.
  - by rewrite <- !app_assoc.
Qed.

(** Without a transcript in the session state the handler stops at its
    first statement. *)
Lemma handle_without_transcript prompt w :
  messages (session_state w) = None ->
  handle_user_message service prompt w = (Raises (AttributeError "messages"), w).
Proof.
  intros Hmsgs. destruct w as [[cl ch ms] conf tr]; simpl in *; subst. reflexivity.
Qed.

(** The handler either stops at once, for want of a transcript, or
    completes the turn. *)
Lemma handle_cases prompt w :
  (messages (session_state w) = None /\
   handle_user_message service prompt w = (Raises (AttributeError "messages"), w)) \/
  (exists msgs reply shown,
     messages (session_state w) = Some msgs /\
     handle_user_message service prompt w =
       (Returns tt, after_turn w msgs prompt reply shown)).
Proof.
  destruct (messages (session_state w)) as [msgs|] eqn:Hmsgs.
  - right. destruct (gemini_chat (session_state w)) as [chat|] eqn:Hchat.
    + destruct (stream_chunks (send_message_stream service chat prompt))
        as [chunks [Hs|[detail Hs]]].
      * eexists _, _, _. split; [done|]. by apply handle_stream_completed.
      * eexists _, _, _. split; [done|]. by apply handle_stream_failed.
    + eexists _, _, _. split; [done|]. by apply handle_without_chat.
  - left. split; [done|]. by apply handle_without_transcript.
Qed.

End Handler.

(** ** The client factory *)

Section Client.

Variable service : Service.

Lemma get_client_cached w client :
  gemini_client (session_state w) = Some client ->
  get_gemini_client service w = (Returns (Some client), w).
Proof.
  intros Hc. unfold get_gemini_client. unfold_steps. by rewrite Hc.
Qed.

Lemma get_client_missing_key w :
  gemini_client (session_state w) = None ->
  secrets w !! API_KEY_NAME = None ->
  get_gemini_client service w = (Returns None, extend w [ev_error NO_KEY_TEXT]).
Proof.
  intros Hc Hk. unfold get_gemini_client. unfold_steps. by rewrite Hc, Hk.
Qed.

Lemma get_client_constructed w key client :
  gemini_client (session_state w) = None ->
  secrets w !! API_KEY_NAME = Some key ->
  genai_Client service key = Returned client ->
  get_gemini_client service w =
    (Returns (Some client),
     with_session (with_client client (session_state w)) (extend w [ev_Client key])).
Proof.
  intros Hc Hk Hnew. unfold get_gemini_client. unfold_steps.
  by rewrite Hc, Hk, Hnew.
Qed.

Lemma get_client_construction_failed w key detail :
  gemini_client (session_state w) = None ->
  secrets w !! API_KEY_NAME = Some key ->
  genai_Client service key = Failed detail ->
  get_gemini_client service w =
    (Returns None,
     extend w [ev_Client key; ev_error (CLIENT_ERROR_PREFIX +:+ detail)]).
Proof.
  intros Hc Hk Hnew. unfold get_gemini_client. unfold_steps.
  rewrite Hc, Hk, Hnew. simpl. unfold extend; simpl. by rewrite <- app_assoc.
Qed.

(** The factory never raises, and it returns no client only without
    touching the session state. *)
Lemma get_client_cases w :
  (exists client w', get_gemini_client service w = (Returns (Some client), w') /\
      gemini_client (session_state w') = Some client /\
      gemini_chat (session_state w') = gemini_chat (session_state w) /\
      messages (session_state w') = messages (session_state w) /\
      secrets w' = secrets w) \/
  (exists evs, get_gemini_client service w = (Returns None, extend w evs) /\
      gemini_client (session_state w) = None /\
      existsb is_stream_call evs = false).
Proof.
  destruct (gemini_client (session_state w)) as [client|] eqn:Hc.
  - left. exists client, w. by rewrite (get_client_cached _ _ Hc).
  - destruct (secrets w !! API_KEY_NAME) as [key|] eqn:Hk.
    + destruct (genai_Client service key) as [client|detail] eqn:Hnew.
      * left. eexists _, _. by rewrite (get_client_constructed _ _ _ Hc Hk Hnew).
      * right. eexists. by rewrite (get_client_construction_failed _ _ _ Hc Hk Hnew).
    + right. eexists. by rewrite (get_client_missing_key _ Hc Hk).
Qed.

Lemma after_calls_missing_key w n :
  gemini_client (session_state w) = None ->
  secrets w !! API_KEY_NAME = None ->
  after_calls service n w = extend w (replicate n (ev_error NO_KEY_TEXT)).
Proof.
  intros Hc Hk. revert w Hc Hk. induction n as [|n IH]; intros w Hc Hk; simpl.
  - by rewrite extend_nil.
  - rewrite (get_client_missing_key _ Hc Hk). simpl.
    rewrite IH by done. by rewrite extend_extend.
Qed.

Lemma after_calls_cached w client n :
  gemini_client (session_state w) = Some client ->
  after_calls service n w = w.
Proof.
  intros Hc. induction n as [|n IH]; simpl; [done|].
  by rewrite (get_client_cached _ _ Hc).
Qed.

End Client.

(** ** Reset *)

Section Reset.

Variable service : Service.

Lemma reset_chat_completed w client w1 chat :
  get_gemini_client service w = (Returns (Some client), w1) ->
  chats_create service client MODEL_NAME SYSTEM_INSTRUCTION = Returned chat ->
  reset_chat service w =
    (Raises RerunException,
     with_session (fresh_session (gemini_client (session_state w1)) chat)
       (extend w1 [ev_chats_create client MODEL_NAME SYSTEM_INSTRUCTION])).
Proof.
  intros Hget Hnew. unfold reset_chat, bind at 1. rewrite Hget.
  unfold_steps. by rewrite Hnew.
Qed.

Lemma reset_chat_create_failed w client w1 detail :
  get_gemini_client service w = (Returns (Some client), w1) ->
  chats_create service client MODEL_NAME SYSTEM_INSTRUCTION = Failed detail ->
  reset_chat service w =
    (Raises (Exception detail),
     extend w1 [ev_chats_create client MODEL_NAME SYSTEM_INSTRUCTION]).
Proof.
  intros Hget Hnew. unfold reset_chat, bind at 1. rewrite Hget.
  unfold_steps. by rewrite Hnew.
Qed.

Lemma reset_chat_no_client w w1 :
  get_gemini_client service w = (Returns None, w1) ->
  reset_chat service w = (Returns tt, extend w1 [ev_error RESET_FAILED_TEXT]).
Proof.
  intros Hget. unfold reset_chat, bind at 1. by rewrite Hget.
Qed.

End Reset.

(** ** Properties of a turn *)

Lemma join_texts_concat chunks :
  join_texts chunks = String.concat "" (map text chunks).
Proof.
  induction chunks as [|c chunks IH]; [done|].
  destruct chunks as [|c' chunks].
  - apply append_empty_r.
  - change (text c +:+ join_texts (c' :: chunks) =
            text c +:+ ("" +:+ String.concat "" (map text (c' :: chunks)))).
    by rewrite IH.
Qed.

(** C1: when the stream of a turn yields its chunks and ends without
    raising, the handler returns and the assistant message it appends to
    the transcript holds the chunk texts joined in the order received. *)
Theorem sealed_reply_is_concatenation service prompt chunks w chat msgs :
  gemini_chat (session_state w) = Some chat ->
  messages (session_state w) = Some msgs ->
  send_message_stream service chat prompt = stream_of chunks StopIteration ->
  exists w',
    handle_user_message service prompt w = (Returns tt, w') /\
    messages (session_state w') =
      Some (msgs ++ [user_message prompt; assistant_message (join_texts chunks)]).
Proof.
  intros Hchat Hmsgs Hstream. eexists. split.
  - by apply handle_stream_completed.
  - reflexivity.
Qed.

Lemma sealed_reply_is_concatenation_witness :
  exists w',
    handle_user_message answering_service "What is a fever?" chatting_world = (Returns tt, w') /\
    messages (session_state w') =
      Some ([welcome] ++ [user_message "What is a fever?";
                          assistant_message (join_texts fever_chunks)]).
Proof.
  apply (sealed_reply_is_concatenation answering_service "What is a fever?"
           fever_chunks chatting_world (chat_obj 1) [welcome]); reflexivity.
Defined.

(** C2: when the stream of a turn raises after yielding [chunks] (any
    number of them, none included), the loop stops there, the handler
    returns, and the one assistant message it appends is the fixed error
    text followed by the error's detail, not the text accumulated so far. *)
Theorem failed_stream_seals_error service prompt chunks detail w chat msgs :
  gemini_chat (session_state w) = Some chat ->
  messages (session_state w) = Some msgs ->
  send_message_stream service chat prompt = stream_of chunks (StreamError detail) ->
  exists w',
    handle_user_message service prompt w = (Returns tt, w') /\
    messages (session_state w') =
      Some (msgs ++ [user_message prompt;
                     assistant_message (STREAM_ERROR_PREFIX +:+ detail)]) /\
    trace w' =
      trace w ++ ev_chat_markdown "user" prompt
              :: ev_send_message_stream chat prompt
              :: renders "" chunks
              ++ [ev_placeholder (STREAM_ERROR_PREFIX +:+ detail)].
Proof.
  intros Hchat Hmsgs Hstream. eexists. split; [|split].
  - by apply handle_stream_failed.
  - reflexivity.
  - reflexivity.
Qed.

Lemma failed_stream_seals_error_witness :
  exists w',
    handle_user_message breaking_service "What is a fever?" chatting_world = (Returns tt, w') /\
    messages (session_state w') =
      Some ([welcome] ++ [user_message "What is a fever?";
                          assistant_message (STREAM_ERROR_PREFIX +:+ "503 UNAVAILABLE")]) /\
    trace w' =
      trace chatting_world
        ++ ev_chat_markdown "user" "What is a fever?"
        :: ev_send_message_stream (chat_obj 1) "What is a fever?"
        :: renders "" [ {| text := "A fever is " |} ]
        ++ [ev_placeholder (STREAM_ERROR_PREFIX +:+ "503 UNAVAILABLE")].
Proof.
  apply (failed_stream_seals_error breaking_service "What is a fever?"
           [ {| text := "A fever is " |} ] "503 UNAVAILABLE" chatting_world
           (chat_obj 1) [welcome]); reflexivity.
Defined.



(** C9: whatever the session's chat and whatever the stream does, a call
    of the handler in a session with transcript [msgs] returns and leaves
    the transcript [msgs] followed by exactly two entries, the user's
    message with the submitted text and then one assistant message. *)
Theorem turn_appends_two service prompt w msgs :
  messages (session_state w) = Some msgs ->
  exists reply w' msgs',
    handle_user_message service prompt w = (Returns tt, w') /\
    messages (session_state w') = Some msgs' /\
    msgs' = msgs ++ [ {| role := "user"; content := prompt |};
                      {| role := "assistant"; content := reply |} ] /\
    length msgs' = length msgs + 2.
Proof.
  intros Hmsgs.
  assert (Hlen : forall reply, length (msgs ++ turn prompt reply) = length msgs + 2).
  { intros reply. by rewrite length_app. }
  destruct (gemini_chat (session_state w)) as [chat|] eqn:Hchat.
  - destruct (stream_chunks (send_message_stream service chat prompt))
      as [chunks [Hs|[detail Hs]]].
    + eexists _, _, _. split; [by apply handle_stream_completed|].
      split; [reflexivity|]. split; [reflexivity|apply Hlen].
    + eexists _, _, _. split; [by apply handle_stream_failed|].
      split; [reflexivity|]. split; [reflexivity|apply Hlen].
  - eexists _, _, _. split; [by apply handle_without_chat|].
    split; [reflexivity|]. split; [reflexivity|apply Hlen].
Qed.

Lemma turn_appends_two_witness :
  exists reply w' msgs',
    handle_user_message breaking_service "What is a fever?" chatting_world = (Returns tt, w') /\
    messages (session_state w') = Some msgs' /\
    msgs' = [welcome] ++ [ {| role := "user"; content := "What is a fever?" |};
                           {| role := "assistant"; content := reply |} ] /\
    length msgs' = length [welcome] + 2.
Proof.
  apply (turn_appends_two breaking_service "What is a fever?" chatting_world [welcome]).
  reflexivity.
Defined.

(** ** Properties of the client factory *)

(** C7: in a session without a cached client, under a configuration
    without the key, every call of the factory, however many came before,
    shows the missing-key error, returns no client and stores none: the
    session state stays as it was and the service is never called. *)
Theorem missing_credential_every_call service w n :
  secrets w !! API_KEY_NAME = None ->
  gemini_client (session_state w) = None ->
  exists w',
    get_gemini_client service (after_calls service n w) = (Returns None, w') /\
    gemini_client (session_state w') = None /\
    session_state w' = session_state w /\
    trace w' = trace w ++ replicate (S n) (ev_error NO_KEY_TEXT).
Proof.
  intros Hk Hc. rewrite (after_calls_missing_key service w n Hc Hk).
  eexists. split; [by apply get_client_missing_key|].
  split; [exact Hc|]. split; [reflexivity|].
  simpl. rewrite <- app_assoc. f_equal.
  change (replicate n (ev_error NO_KEY_TEXT) ++ replicate 1 (ev_error NO_KEY_TEXT)
          = replicate (S n) (ev_error NO_KEY_TEXT)).
  rewrite <- replicate_add. f_equal. lia.
Qed.

Lemma missing_credential_every_call_witness :
  exists w',
    get_gemini_client answering_service
      (after_calls answering_service 2 (fresh_world ∅)) = (Returns None, w') /\
    gemini_client (session_state w') = None /\
    session_state w' = session_state (fresh_world ∅) /\
    trace w' = trace (fresh_world ∅) ++ replicate 3 (ev_error NO_KEY_TEXT).
Proof.
  apply (missing_credential_every_call answering_service (fresh_world ∅) 2); reflexivity.
Defined.

(** C8: a cached client is returned as it is and the call changes
    nothing; a first successful construction stores the new client, and
    every later call returns that client and changes nothing. *)
Theorem get_client_idempotent service w client :
  (gemini_client (session_state w) = Some client ->
   get_gemini_client service w = (Returns (Some client), w)) /\
  (forall key,
     gemini_client (session_state w) = None ->
     secrets w !! API_KEY_NAME = Some key ->
     genai_Client service key = Returned client ->
     exists w',
       get_gemini_client service w = (Returns (Some client), w') /\
       gemini_client (session_state w') = Some client /\
       forall n,
         get_gemini_client service (after_calls service n w') =
           (Returns (Some client), w')).
Proof.
  split.
  - apply get_client_cached.
  - intros key Hc Hk Hnew. eexists. split; [by apply get_client_constructed|].
    split; [reflexivity|]. intros n.
    rewrite (after_calls_cached service _ client n) by reflexivity.
    by apply get_client_cached.
Qed.

Lemma get_client_idempotent_witness :
  get_gemini_client answering_service chatting_world =
    (Returns (Some (client_obj 1)), chatting_world) /\
  exists w',
    get_gemini_client answering_service (fresh_world with_key) =
      (Returns (Some (client_obj 1)), w') /\
    gemini_client (session_state w') = Some (client_obj 1) /\
    forall n,
      get_gemini_client answering_service (after_calls answering_service n w') =
        (Returns (Some (client_obj 1)), w').
Proof.
  split.
  - apply (proj1 (get_client_idempotent answering_service chatting_world (client_obj 1))).
    reflexivity.
  - apply (proj2 (get_client_idempotent answering_service (fresh_world with_key)
                    (client_obj 1)) "secret"); reflexivity.
Defined.

(** C10: with a cached client the factory returns it under every
    configuration, the one with the key removed included: its result does
    not depend on the configuration, and it shows and calls nothing. *)
Theorem cached_client_ignores_config service w client :
  gemini_client (session_state w) = Some client ->
  (forall conf,
     get_gemini_client service (with_secrets conf w) =
       (Returns (Some client), with_secrets conf w)) /\
  delete API_KEY_NAME (secrets w) !! API_KEY_NAME = None /\
  get_gemini_client service (with_secrets (delete API_KEY_NAME (secrets w)) w) =
    (Returns (Some client), with_secrets (delete API_KEY_NAME (secrets w)) w).
Proof.
  intros Hc.
  assert (H : forall conf, get_gemini_client service (with_secrets conf w) =
                (Returns (Some client), with_secrets conf w)).
  { intros conf. by apply get_client_cached. }
  split; [exact H|]. split; [apply lookup_delete_eq|apply H].
Qed.

Lemma cached_client_ignores_config_witness :
  (forall conf,
     get_gemini_client breaking_service (with_secrets conf chatting_world) =
       (Returns (Some (client_obj 1)), with_secrets conf chatting_world)) /\
  delete API_KEY_NAME (secrets chatting_world) !! API_KEY_NAME = None /\
  get_gemini_client breaking_service
    (with_secrets (delete API_KEY_NAME (secrets chatting_world)) chatting_world) =
    (Returns (Some (client_obj 1)),
     with_secrets (delete API_KEY_NAME (secrets chatting_world)) chatting_world).
Proof.
  apply (cached_client_ignores_config breaking_service chatting_world (client_obj 1)).
  reflexivity.
Defined.

(** ** Properties of reset *)



(** C4: when the factory returns no client, reset shows why and returns
    with the session state exactly as it was before the call: the chat and
    the transcript keep their values, or stay absent when there were none. *)
Theorem reset_without_client service w :
  fst (get_gemini_client service w) = Returns None ->
  exists w',
    reset_chat service w = (Returns tt, w') /\
    session_state w' = session_state w /\
    gemini_chat (session_state w') = gemini_chat (session_state w) /\
    messages (session_state w') = messages (session_state w) /\
    secrets w' = secrets w.
Proof.
  intros Hnone.
  destruct (get_client_cases service w)
    as [(client & w1 & Hget & _)|(evs & Hget & _)].
  - rewrite Hget in Hnone. discriminate.
  - eexists. split; [by apply reset_chat_no_client|]. by repeat split.
Qed.

Lemma reset_without_client_witness :
  exists w',
    reset_chat answering_service (fresh_world ∅) = (Returns tt, w') /\
    session_state w' = session_state (fresh_world ∅) /\
    gemini_chat (session_state w') = gemini_chat (session_state (fresh_world ∅)) /\
    messages (session_state w') = messages (session_state (fresh_world ∅)) /\
    secrets w' = secrets (fresh_world ∅).
Proof.
  apply (reset_without_client answering_service (fresh_world ∅)). reflexivity.
Defined.

(** ** Whole runs of the script *)

Section Script.

Variable service : Service.

(** The history loop shows the transcript, entry by entry. *)
Lemma display_history_shows w msgs :
  messages (session_state w) = Some msgs ->
  display_history w = (Returns tt, extend w (shown_history msgs)).
Proof.
  intros Hmsgs. unfold display_history, get_messages.
  unfold bind at 1. unfold bind at 1. unfold get_session at 1. rewrite Hmsgs.
  cbv beta iota. unfold ret at 1.
  clear Hmsgs. revert w. induction msgs as [|m msgs IH]; intros w; simpl.
  - unfold ret. by rewrite extend_nil.
  - erewrite bind_returns by apply emit_extend.
    rewrite IH, extend_extend. reflexivity.
Qed.

(** What the factory returns depends on the session state and on the
    configuration only, not on what was shown before. *)
Lemma get_client_result_frame w1 w2 :
  session_state w1 = session_state w2 ->
  secrets w1 = secrets w2 ->
  fst (get_gemini_client service w1) = fst (get_gemini_client service w2).
Proof.
  intros Hs Hk. unfold get_gemini_client. unfold_steps. cbv beta. rewrite Hs.
  destruct (gemini_client (session_state w2)); [done|].
  cbv beta. rewrite Hk.
  destruct (secrets w2 !! API_KEY_NAME) as [key|]; [|done].
  by destruct (genai_Client service key).
Qed.

(** A run with an input, in a session with a transcript and no chat whose
    reset finds no client, handles the input without a stream. *)
Lemma script_turn_without_chat prompt w msgs :
  truthy prompt = true ->
  gemini_chat (session_state w) = None ->
  messages (session_state w) = Some msgs ->
  fst (get_gemini_client service w) = Returns None ->
  exists w' shown,
    script service (Some prompt) w = (Returns tt, w') /\
    messages (session_state w') =
      Some (msgs ++ [user_message prompt; assistant_message NOT_INITIALIZED_TEXT]) /\
    trace w' = trace w ++ shown /\
    existsb is_stream_call shown = false.
Proof.
  intros Htruthy Hchat Hmsgs Hnone. unfold script.
  erewrite bind_returns by apply emit_extend.
  erewrite bind_returns by apply emit_extend.
  rewrite extend_extend. simpl app.
  set (w0 := extend w _).
  erewrite bind_returns by reflexivity.
  change (gemini_chat (session_state w0)) with (gemini_chat (session_state w)).
  rewrite Hchat.
  assert (Hnone0 : fst (get_gemini_client service w0) = Returns None).
  { by rewrite (get_client_result_frame w0 w). }
  destruct (get_client_cases service w0)
    as [(client & w1 & Hget & _)|(evs & Hget & _ & Hevs)].
  { rewrite Hget in Hnone0. discriminate. }
  erewrite bind_returns by (apply reset_chat_no_client; exact Hget).
  rewrite extend_extend.
  erewrite bind_returns by apply emit_extend.
  erewrite bind_returns by apply emit_extend.
  rewrite !extend_extend.
  erewrite bind_returns by (apply display_history_shows; exact Hmsgs).
  rewrite extend_extend. rewrite Htruthy.
  rewrite (handle_without_chat service prompt _ msgs) by (simpl; done).
  eexists _, _. split; [reflexivity|]. split; [reflexivity|].
  split.
  - unfold after_turn, extend, w0; simpl. rewrite <- !app_assoc. reflexivity.
  - assert (Hh : existsb is_stream_call (shown_history msgs) = false).
    { clear. induction msgs; simpl; auto. }
    rewrite !existsb_app, Hevs, Hh. reflexivity.
Qed.

Lemma display_history_fails w :
  messages (session_state w) = None ->
  display_history w = (Raises (AttributeError "messages"), w).
Proof.
  intros Hmsgs. unfold display_history, get_messages. unfold_steps. by rewrite Hmsgs.
Qed.

(** Without a transcript in the session state no run of the script gets
    past the history loop, so none handles an input. *)
Lemma script_needs_transcript chat_input w :
  messages (session_state w) = None ->
  exists e w', script service chat_input w = (Raises e, w').
Proof.
  intros Hmsgs. unfold script.
  erewrite bind_returns by apply emit_extend.
  erewrite bind_returns by apply emit_extend.
  rewrite extend_extend. simpl app.
  set (w0 := extend w _).
  erewrite bind_returns by reflexivity.
  change (gemini_chat (session_state w0)) with (gemini_chat (session_state w)).
  destruct (gemini_chat (session_state w)) as [chat|].
  - erewrite bind_returns by reflexivity.
    erewrite bind_returns by apply emit_extend.
    erewrite bind_returns by apply emit_extend.
    erewrite bind_raises by (apply display_history_fails; exact Hmsgs).
    by eexists _, _.
  - destruct (get_client_cases service w0)
      as [(client & w1 & Hget & _)|(evs & Hget & _)].
    + destruct (chats_create service client MODEL_NAME SYSTEM_INSTRUCTION)
        as [chat|detail] eqn:Hnew.
      * erewrite bind_raises by (eapply reset_chat_completed; eassumption).
        by eexists _, _.
      * erewrite bind_raises by (eapply reset_chat_create_failed; eassumption).
        by eexists _, _.
    + erewrite bind_returns by (apply reset_chat_no_client; exact Hget).
      erewrite bind_returns by apply emit_extend.
      erewrite bind_returns by apply emit_extend.
      erewrite bind_raises by (apply display_history_fails; exact Hmsgs).
      by eexists _, _.
Qed.

(** A first run whose reset finds no client goes on to the history loop
    and stops there: no transcript was ever set. *)
Lemma script_stops_without_transcript chat_input w :
  gemini_chat (session_state w) = None ->
  messages (session_state w) = None ->
  fst (get_gemini_client service w) = Returns None ->
  fst (script service chat_input w) = Raises (AttributeError "messages").
Proof.
  intros Hchat Hmsgs Hnone. destruct w as [[cl ch ms] conf tr].
  unfold script, reset_chat, display_history, get_gemini_client in *.
  unfold_steps. simpl in *. subst ch ms.
  destruct cl as [client|]; [discriminate|]. simpl in *.
  destruct (conf !! API_KEY_NAME) as [key|]; [|reflexivity].
  destruct (genai_Client service key); simpl in *; [discriminate|reflexivity].
Qed.

(** A run whose reset cannot open a chat ends with the service's error. *)
Lemma script_stops_when_chat_refused chat_input w client detail :
  gemini_chat (session_state w) = None ->
  gemini_client (session_state w) = Some client ->
  chats_create service client MODEL_NAME SYSTEM_INSTRUCTION = Failed detail ->
  fst (script service chat_input w) = Raises (Exception detail).
Proof.
  intros Hchat Hc Hnew. unfold script. unfold_steps. simpl. rewrite Hchat.
  erewrite reset_chat_create_failed; [reflexivity| |exact Hnew].
  by apply get_client_cached.
Qed.

End Script.

(** ** Transcript and chat go together *)

Section Invariant.

Variable service : Service.

Lemma handle_keeps_shape prompt w :
  let w' := snd (handle_user_message service prompt w) in
  gemini_chat (session_state w') = gemini_chat (session_state w) /\
  (is_Some (messages (session_state w')) <-> is_Some (messages (session_state w))).
Proof.
  destruct (handle_cases service prompt w) as [[Hmsgs ->]|(msgs & reply & shown & Hmsgs & ->)].
  - done.
  - simpl. rewrite Hmsgs. split; [done|]. split; eauto.
Qed.

Lemma handle_keeps_consistent prompt w :
  consistent (session_state w) ->
  consistent (session_state (snd (handle_user_message service prompt w))).
Proof.
  intros Hw. destruct (handle_keeps_shape prompt w) as [Hchat Hmsgs].
  unfold consistent in *. rewrite Hchat. intros H. apply Hw. by apply Hmsgs.
Qed.

Lemma reset_keeps_consistent w :
  consistent (session_state w) ->
  consistent (session_state (snd (reset_chat service w))).
Proof.
  intros Hw.
  destruct (get_client_cases service w)
    as [(client & w1 & Hget & _ & Hchat & Hmsgs & _)|(evs & Hget & _)].
  - destruct (chats_create service client MODEL_NAME SYSTEM_INSTRUCTION)
      as [chat|detail] eqn:Hnew.
    + rewrite (reset_chat_completed service w client w1 chat Hget Hnew). simpl.
      intros _. by eexists.
    + rewrite (reset_chat_create_failed service w client w1 detail Hget Hnew). simpl.
      unfold consistent in *. by rewrite Hchat, Hmsgs.
  - by rewrite (reset_chat_no_client service w _ Hget).
Qed.

Lemma display_history_session w :
  session_state (snd (display_history w)) = session_state w.
Proof.
  destruct (messages (session_state w)) as [msgs|] eqn:Hmsgs.
  - by rewrite (display_history_shows w msgs Hmsgs).
  - by rewrite (display_history_fails w Hmsgs).
Qed.

(** Every run of the script keeps the session state consistent, however
    it ends. *)
Lemma script_keeps_consistent chat_input w :
  consistent (session_state w) ->
  consistent (session_state (snd (script service chat_input w))).
Proof.
  intros Hw. unfold script.
  erewrite bind_returns by apply emit_extend.
  erewrite bind_returns by apply emit_extend.
  rewrite extend_extend. simpl app.
  set (w0 := extend w _).
  assert (Hw0 : consistent (session_state w0)) by exact Hw.
  clearbody w0. clear w Hw.
  erewrite bind_returns by reflexivity.
  assert (Hstep : forall (m : M unit),
    consistent (session_state (snd (m w0))) ->
    consistent (session_state (snd (bind m (fun _ =>
      emit (ev_page "disclaimer") ;; emit (ev_page "sidebar") ;;
      display_history ;;
      match chat_input with
      | Some prompt =>
          if truthy prompt then handle_user_message service prompt else ret tt
      | None => ret tt
      end) w0)))).
  { intros m Hm. unfold bind at 1. destruct (m w0) as [[[]|e] w1]; [|exact Hm].
    simpl in Hm.
    erewrite bind_returns by apply emit_extend.
    erewrite bind_returns by apply emit_extend.
    rewrite extend_extend. simpl app.
    set (w2 := extend w1 _).
    assert (Hw2 : consistent (session_state w2)) by exact Hm.
    clearbody w2.
    unfold bind at 1. pose proof (display_history_session w2) as Hd.
    destruct (display_history w2) as [[[]|e] w3]; simpl in Hd.
    - destruct chat_input as [prompt|]; [|by unfold ret; simpl; rewrite Hd].
      destruct (truthy prompt); [|by unfold ret; simpl; rewrite Hd].
      apply handle_keeps_consistent. by rewrite Hd.
    - simpl. by rewrite Hd. }
  destruct (gemini_chat (session_state w0)).
  - apply Hstep. exact Hw0.
  - apply Hstep. by apply reset_keeps_consistent.
Qed.

(** In a session that started with empty session state, a transcript is
    never there without a chat. *)
Lemma transcript_needs_chat conf w :
  reaches service (fresh_world conf) w ->
  consistent (session_state w).
Proof.
  induction 1 as [|w1 chat_input _ IH|w1 _ IH].
  - intros [msgs Hmsgs]. discriminate.
  - by apply script_keeps_consistent.
  - by apply reset_keeps_consistent.
Qed.

End Invariant.

(** The end-to-end scenario: a first run resets and asks for a rerun;
    the next run, with a question submitted, ends with the welcome
    message, the question and the joined answer in the transcript. *)
Example fever_scenario :
  let run1 := script answering_service None (fresh_world with_key) in
  let run2 := script answering_service (Some "What is a fever?") (snd run1) in
  fst run1 = Raises RerunException /\
  messages (session_state (snd run1)) = Some [welcome] /\
  fst run2 = Returns tt /\
  messages (session_state (snd run2)) =
    Some [welcome; user_message "What is a fever?";
          assistant_message "A fever is a rise in body temperature."].
Proof. vm_compute. by repeat split. Qed.

(** A session that kept a transcript but has no chat and cannot get a
    client: the run answers the question with the initialization-failure
    text. *)
Example chatless_scenario :
  let run := script answering_service (Some "What is a fever?") chatless_world in
  fst run = Returns tt /\
  messages (session_state (snd run)) =
    Some [welcome; user_message "What is a fever?";
          assistant_message NOT_INITIALIZED_TEXT].
Proof. vm_compute. by split. Qed.

(** C5: not every failure is turned into text where it arises.  A reset
    whose chat creation fails raises the service's error out of
    [reset_chat] and out of the script run; and the first run of a session
    without the key, after its reset has reported the failure, raises
    [AttributeError] in the history loop. *)
Theorem reset_failures_escape :
  fst (reset_chat breaking_service (fresh_world with_key)) =
    Raises (Exception "429 RESOURCE_EXHAUSTED") /\
  fst (script breaking_service None (fresh_world with_key)) =
    Raises (Exception "429 RESOURCE_EXHAUSTED") /\
  script answering_service None (fresh_world ∅) =
    (Raises (AttributeError "messages"),
     extend (fresh_world ∅)
       [ev_page "page_config"; ev_page "title";
        ev_error NO_KEY_TEXT; ev_error RESET_FAILED_TEXT;
        ev_page "disclaimer"; ev_page "sidebar"]).
Proof. vm_compute. by repeat split. Qed.

(** * Further properties *)

(** ** The factory and reset, case by case *)

(** X1: when no client is cached and the constructor raises for the
    configured key, the factory does not raise: it shows the
    initialization error with the exception's text, returns no client and
    leaves the session state as it was; the constructor got the key as
    configured. *)
Theorem constructor_failure_reported service w key detail :
  gemini_client (session_state w) = None ->
  secrets w !! API_KEY_NAME = Some key ->
  genai_Client service key = Failed detail ->
  exists w',
    get_gemini_client service w = (Returns None, w') /\
    session_state w' = session_state w /\
    secrets w' = secrets w /\
    trace w' = trace w ++ [ev_Client key; ev_error (CLIENT_ERROR_PREFIX +:+ detail)].
Proof.
  intros Hc Hk Hnew. eexists. split.
  - by apply get_client_construction_failed.
  - by repeat split.
Qed.

Lemma constructor_failure_reported_witness :
  exists w',
    get_gemini_client refusing_service (fresh_world with_key) = (Returns None, w') /\
    session_state w' = session_state (fresh_world with_key) /\
    secrets w' = secrets (fresh_world with_key) /\
    trace w' = trace (fresh_world with_key)
                 ++ [ev_Client "secret";
                     ev_error (CLIENT_ERROR_PREFIX +:+ "API key not valid")].
Proof.
  apply (constructor_failure_reported refusing_service (fresh_world with_key)
           "secret" "API key not valid"); reflexivity.
Defined.

(** X2: the factory never raises, and what it returns is what the
    session state caches afterwards: a client exactly when one is stored,
    and then that one.  It never touches the chat, the transcript or the
    configuration, and it never opens a stream. *)
Theorem factory_returns_what_is_cached service w :
  exists r w' evs,
    get_gemini_client service w = (Returns r, w') /\
    gemini_client (session_state w') = r /\
    gemini_chat (session_state w') = gemini_chat (session_state w) /\
    messages (session_state w') = messages (session_state w) /\
    secrets w' = secrets w /\
    trace w' = trace w ++ evs /\
    existsb is_stream_call evs = false.
Proof.
  destruct (gemini_client (session_state w)) as [client|] eqn:Hc.
  - exists (Some client), w, []. rewrite (get_client_cached _ _ _ Hc).
    rewrite app_nil_r. by repeat split.
  - destruct (secrets w !! API_KEY_NAME) as [key|] eqn:Hk.
    + destruct (genai_Client service key) as [client|detail] eqn:Hnew.
      * eexists _, _, _. rewrite (get_client_constructed _ _ _ _ Hc Hk Hnew).
        by repeat split.
      * eexists _, _, _. rewrite (get_client_construction_failed _ _ _ _ Hc Hk Hnew).
        by repeat split.
    + eexists _, _, _. rewrite (get_client_missing_key _ _ Hc Hk). by repeat split.
Qed.

(** X3: a failure for want of the key is not remembered: once the key is
    configured, the next call constructs the client with it, stores it and
    returns it. *)
Theorem missing_key_failure_not_sticky service w key client :
  gemini_client (session_state w) = None ->
  secrets w !! API_KEY_NAME = None ->
  genai_Client service key = Returned client ->
  let failed := get_gemini_client service w in
  let configured := with_secrets (<[API_KEY_NAME := key]> (secrets w)) (snd failed) in
  let retried := get_gemini_client service configured in
  fst failed = Returns None /\
  fst retried = Returns (Some client) /\
  gemini_client (session_state (snd retried)) = Some client /\
  trace (snd retried) = trace w ++ [ev_error NO_KEY_TEXT; ev_Client key].
Proof.
  intros Hc Hk Hnew. simpl. rewrite (get_client_missing_key _ _ Hc Hk). simpl.
  split; [done|].
  erewrite get_client_constructed; [|exact Hc|apply lookup_insert_eq|exact Hnew].
  simpl. rewrite <- app_assoc. by repeat split.
Qed.

Lemma missing_key_failure_not_sticky_witness :
  let failed := get_gemini_client answering_service (fresh_world ∅) in
  let configured :=
    with_secrets (<[API_KEY_NAME := "secret"]> (secrets (fresh_world ∅))) (snd failed) in
  let retried := get_gemini_client answering_service configured in
  fst failed = Returns None /\
  fst retried = Returns (Some (client_obj 1)) /\
  gemini_client (session_state (snd retried)) = Some (client_obj 1) /\
  trace (snd retried) =
    trace (fresh_world ∅) ++ [ev_error NO_KEY_TEXT; ev_Client "secret"].
Proof.
  apply (missing_key_failure_not_sticky answering_service (fresh_world ∅)
           "secret" (client_obj 1)); reflexivity.
Defined.


(** X5: with a cached client, reset neither reads the key nor calls the
    constructor: under any configuration its only request is the chat
    creation on the cached client with the module's model and system
    instruction.  When that succeeds the session holds the new chat, the
    welcome transcript and the same client. *)
Theorem reset_reuses_cached_client service w client chat :
  gemini_client (session_state w) = Some client ->
  chats_create service client MODEL_NAME SYSTEM_INSTRUCTION = Returned chat ->
  reset_chat service w =
    (Raises RerunException,
     with_session (fresh_session (Some client) chat)
       (extend w [ev_chats_create client MODEL_NAME SYSTEM_INSTRUCTION])).
Proof.
  intros Hc Hnew.
  rewrite (reset_chat_completed service w client w chat); [|by apply get_client_cached|done].
  by rewrite Hc.
Qed.

Lemma reset_reuses_cached_client_witness :
  reset_chat answering_service keyless_conversation =
    (Raises RerunException,
     with_session (fresh_session (Some (client_obj 1)) (chat_obj 1))
       (extend keyless_conversation
          [ev_chats_create (client_obj 1) MODEL_NAME SYSTEM_INSTRUCTION])).
Proof.
  apply (reset_reuses_cached_client answering_service keyless_conversation
           (client_obj 1) (chat_obj 1)); reflexivity.
Defined.

(** ** Turns over arbitrary streams *)

Lemma stream_decompose s :
  s = stream_of (chunks_of s)
        (match failure_of s with
         | None => StopIteration
         | Some detail => StreamError detail
         end).
Proof.
  induction s as [| |c rest IH]; simpl; [done|done|]. by rewrite <- IH.
Qed.

Lemma chunks_of_stream_of chunks finish :
  chunks_of (stream_of chunks finish) = chunks ++ chunks_of finish.
Proof. induction chunks as [|c chunks IH]; simpl; [done|]. by rewrite IH. Qed.

Lemma failure_of_stream_of chunks finish :
  failure_of (stream_of chunks finish) = failure_of finish.
Proof. induction chunks as [|c chunks IH]; simpl; done. Qed.

(** A turn in a session with a chat, whatever the stream does. *)
Lemma handle_with_chat service prompt w chat msgs :
  gemini_chat (session_state w) = Some chat ->
  messages (session_state w) = Some msgs ->
  handle_user_message service prompt w =
    (Returns tt,
     after_turn w msgs prompt (sealed_text (send_message_stream service chat prompt))
       (ev_send_message_stream chat prompt
          :: stream_shown (send_message_stream service chat prompt))).
Proof.
  intros Hchat Hmsgs.
  pose proof (stream_decompose (send_message_stream service chat prompt)) as Hs.
  unfold sealed_text, stream_shown, sealed_text.
  destruct (failure_of (send_message_stream service chat prompt)) as [detail|].
  - by apply handle_stream_failed.
  - by apply handle_stream_completed.
Qed.

Lemma renders_lookup acc chunks i :
  i < length chunks ->
  renders acc chunks !! i =
    Some (ev_placeholder ((acc +:+ join_texts (take (S i) chunks)) +:+ CURSOR)).
Proof.
  revert acc i. induction chunks as [|c chunks IH]; intros acc i Hi; simpl in Hi; [lia|].
  destruct i as [|i].
  - simpl. change (join_texts [c]) with (text c +:+ ""). by rewrite append_empty_r.
  - change (renders (acc +:+ text c) chunks !! i =
            Some (ev_placeholder
                    ((acc +:+ (text c +:+ join_texts (take (S i) chunks))) +:+ CURSOR))).
    rewrite IH by lia. by rewrite (append_assoc acc (text c)).
Qed.

(** X6: during a turn the placeholder is updated once per chunk, the
    update for chunk [i] showing the texts of the first [i+1] chunks,
    joined, followed by the cursor; one more update, the last event of the
    turn, shows the sealed text without the cursor.  The stream may end
    either way. *)
Theorem rendering_is_progressive service prompt w chat msgs :
  gemini_chat (session_state w) = Some chat ->
  messages (session_state w) = Some msgs ->
  let s := send_message_stream service chat prompt in
  let w' := snd (handle_user_message service prompt w) in
  let start := length (trace w) + 2 in
  length (trace w') = start + length (chunks_of s) + 1 /\
  (forall i, i < length (chunks_of s) ->
     trace w' !! (start + i) =
       Some (ev_placeholder (join_texts (take (S i) (chunks_of s)) +:+ CURSOR))) /\
  trace w' !! (start + length (chunks_of s)) = Some (ev_placeholder (sealed_text s)).
Proof.
  intros Hchat Hmsgs. simpl.
  rewrite (handle_with_chat service prompt w chat msgs Hchat Hmsgs).
  cbn [snd]. rewrite after_turn_trace. unfold stream_shown.
  set (s := send_message_stream service chat prompt).
  assert (Hsplit : forall rest : list event,
    trace w ++ ev_chat_markdown "user" prompt :: ev_send_message_stream chat prompt :: rest
    = (trace w ++ [ev_chat_markdown "user" prompt; ev_send_message_stream chat prompt])
        ++ rest).
  { intros rest. by rewrite <- app_assoc. }
  rewrite Hsplit.
  assert (Hlen : length (trace w ++ [ev_chat_markdown "user" prompt;
                                       ev_send_message_stream chat prompt])
                 = length (trace w) + 2).
  { by rewrite length_app. }
  split; [|split].
  - rewrite !length_app, renders_length. simpl. lia.
  - intros i Hi. rewrite <- Hlen. rewrite lookup_app_r by lia.
    replace (length _ + i - length _) with i by lia.
    rewrite lookup_app_l by (rewrite renders_length; lia).
    by apply renders_lookup.
  - rewrite <- Hlen. rewrite lookup_app_r by lia.
    replace (length _ + length (chunks_of s) - length _) with (length (chunks_of s)) by lia.
    rewrite lookup_app_r by (rewrite renders_length; lia).
    rewrite renders_length. by replace (_ - _) with 0 by lia.
Qed.

Lemma rendering_is_progressive_witness :
  let s := send_message_stream answering_service (chat_obj 1) "What is a fever?" in
  let w' := snd (handle_user_message answering_service "What is a fever?" chatting_world) in
  let start := length (trace chatting_world) + 2 in
  length (trace w') = start + length (chunks_of s) + 1 /\
  (forall i, i < length (chunks_of s) ->
     trace w' !! (start + i) =
       Some (ev_placeholder (join_texts (take (S i) (chunks_of s)) +:+ CURSOR))) /\
  trace w' !! (start + length (chunks_of s)) = Some (ev_placeholder (sealed_text s)).
Proof.
  apply (rendering_is_progressive answering_service "What is a fever?" chatting_world
           (chat_obj 1) [welcome]); reflexivity.
Defined.

(** X7: a turn in a session with a chat makes exactly one request to the
    service, the streaming send on the session's chat with the text as
    submitted, and changes nothing in the session state but the
    transcript; the configuration stays as it was.  This holds whether
    the stream completes or fails. *)
Theorem turn_sends_once service prompt w chat msgs :
  gemini_chat (session_state w) = Some chat ->
  messages (session_state w) = Some msgs ->
  exists w' reply shown,
    handle_user_message service prompt w = (Returns tt, w') /\
    session_state w' = with_messages (msgs ++ turn prompt reply) (session_state w) /\
    secrets w' = secrets w /\
    trace w' = trace w ++ shown /\
    filter (fun e => is_service_call e = true) shown =
      [ev_send_message_stream chat prompt].
Proof.
  intros Hchat Hmsgs. eexists _, _, _.
  split; [by apply handle_with_chat|].
  split; [reflexivity|]. split; [reflexivity|]. split; [reflexivity|].
  unfold stream_shown.
  set (chunks := chunks_of _). set (final := sealed_text _).
  assert (Hr : forall acc, filter (fun e => is_service_call e = true)
                 (renders acc chunks ++ [ev_placeholder final]) = []).
  { clear. induction chunks as [|c chunks IH]; intros acc; [done|]. simpl in *.
    rewrite filter_cons_False by (simpl; congruence). apply IH. }
  rewrite filter_cons_False by (simpl; congruence).
  rewrite filter_cons_True by done. by rewrite Hr.
Qed.

Lemma turn_sends_once_witness :
  exists w' reply shown,
    handle_user_message breaking_service "What is a fever?" chatting_world = (Returns tt, w') /\
    session_state w' =
      with_messages ([welcome] ++ turn "What is a fever?" reply) (session_state chatting_world) /\
    secrets w' = secrets chatting_world /\
    trace w' = trace chatting_world ++ shown /\
    filter (fun e => is_service_call e = true) shown =
      [ev_send_message_stream (chat_obj 1) "What is a fever?"].
Proof.
  apply (turn_sends_once breaking_service "What is a fever?" chatting_world
           (chat_obj 1) [welcome]); reflexivity.
Defined.

(** X8: turns compose.  Handling the prompts [prompts] one after the
    other in a session with a chat returns and leaves the transcript it
    started with followed by one user and one assistant entry per prompt,
    in order, each assistant entry sealed from that prompt's stream alone:
    a turn whose stream failed does not change what the later turns add. *)
Theorem turns_compose service prompts w chat msgs :
  gemini_chat (session_state w) = Some chat ->
  messages (session_state w) = Some msgs ->
  exists w',
    for_each prompts (handle_user_message service) w = (Returns tt, w') /\
    messages (session_state w') = Some (msgs ++ turns_for service chat prompts) /\
    gemini_chat (session_state w') = Some chat /\
    length (msgs ++ turns_for service chat prompts) = length msgs + 2 * length prompts.
Proof.
  revert w msgs. induction prompts as [|prompt prompts IH]; intros w msgs Hchat Hmsgs.
  - exists w. simpl. rewrite app_nil_r. split; [done|]. split; [done|]. split; [done|lia].
  - simpl for_each.
    erewrite bind_returns by (by apply handle_with_chat).
    set (reply := sealed_text _). set (shown := _ :: _).
    destruct (IH (after_turn w msgs prompt reply shown) (msgs ++ turn prompt reply))
      as (w' & Hrun & Hm & Hc & Hlen); [exact Hchat|reflexivity|].
    exists w'. split; [exact Hrun|].
    assert (Heq : (msgs ++ turn prompt reply) ++ turns_for service chat prompts
                  = msgs ++ turns_for service chat (prompt :: prompts)).
    { by rewrite <- app_assoc. }
    rewrite <- Heq. split; [exact Hm|]. split; [exact Hc|].
    rewrite Hlen, length_app. simpl. lia.
Qed.

Lemma turns_compose_witness :
  exists w',
    for_each ["What is a cough?"; "What is a fever?"]
      (handle_user_message moody_service) chatting_world = (Returns tt, w') /\
    messages (session_state w') =
      Some ([welcome] ++
            turns_for moody_service (chat_obj 1) ["What is a cough?"; "What is a fever?"]) /\
    gemini_chat (session_state w') = Some (chat_obj 1) /\
    length ([welcome] ++
            turns_for moody_service (chat_obj 1) ["What is a cough?"; "What is a fever?"])
      = length [welcome] + 2 * length ["What is a cough?"; "What is a fever?"].
Proof.
  apply (turns_compose moody_service ["What is a cough?"; "What is a fever?"]
           chatting_world (chat_obj 1) [welcome]); reflexivity.
Defined.

Example moody_transcript :
  turns_for moody_service (chat_obj 1) ["What is a cough?"; "What is a fever?"] =
    [user_message "What is a cough?";
     assistant_message (STREAM_ERROR_PREFIX +:+ "503 UNAVAILABLE");
     user_message "What is a fever?";
     assistant_message "A fever is a rise in body temperature."].
Proof. reflexivity. Qed.

(** ** Runs of the script *)

(** A run, stage by stage: the page top, the reset check, the page
    frame, the history loop, the input. *)
Lemma script_stages service chat_input w :
  script service chat_input w =
    let w0 := extend w page_top in
    match (match gemini_chat (session_state w) with
           | None => reset_chat service w0
           | Some _ => (Returns tt, w0)
           end) with
    | (Raises e, w1) => (Raises e, w1)
    | (Returns _, w1) =>
        match display_history (extend w1 page_frame) with
        | (Raises e, w3) => (Raises e, w3)
        | (Returns _, w3) =>
            match chat_input with
            | Some prompt =>
                if truthy prompt then handle_user_message service prompt w3
                else (Returns tt, w3)
            | None => (Returns tt, w3)
            end
        end
    end.
Proof.
  unfold script.
  erewrite bind_returns by apply emit_extend.
  erewrite bind_returns by apply emit_extend.
  rewrite extend_extend. simpl app. fold page_top.
  erewrite bind_returns by reflexivity.
  change (gemini_chat (session_state (extend w page_top)))
    with (gemini_chat (session_state w)).
  cbv zeta. unfold bind at 1.
  destruct (match gemini_chat (session_state w) with
            | Some _ => ret tt
            | None => reset_chat service
            end (extend w page_top)) as [[[]|e] w1] eqn:Hreset.
  - assert (Hr : match gemini_chat (session_state w) with
                 | Some _ => (Returns tt, extend w page_top)
                 | None => reset_chat service (extend w page_top)
                 end = (Returns tt, w1)).
    { by destruct (gemini_chat (session_state w)). }
    rewrite Hr.
    erewrite bind_returns by apply emit_extend.
    erewrite bind_returns by apply emit_extend.
    rewrite extend_extend. simpl app. fold page_frame.
    unfold bind at 1.
    destruct (display_history (extend w1 page_frame)) as [[[]|e] w3]; [|done].
    destruct chat_input as [prompt|]; [|done]. by destruct (truthy prompt).
  - assert (Hr : match gemini_chat (session_state w) with
                 | Some _ => (Returns tt, extend w page_top)
                 | None => reset_chat service (extend w page_top)
                 end = (Raises e, w1)).
    { by destruct (gemini_chat (session_state w)). }
    by rewrite Hr.
Qed.

(** X9: in a session with a chat and a transcript, a run without input
    (nothing submitted, or the empty string) returns, shows the page and
    the transcript entry by entry in order, and does nothing else: it
    makes no request to the service and leaves session state and
    configuration as they were. *)
Theorem idle_run_only_shows service chat_input w chat msgs :
  gemini_chat (session_state w) = Some chat ->
  messages (session_state w) = Some msgs ->
  chat_input = None \/ chat_input = Some "" ->
  script service chat_input w =
    (Returns tt, extend w (page_top ++ page_frame ++ shown_history msgs)) /\
  existsb is_service_call (page_top ++ page_frame ++ shown_history msgs) = false.
Proof.
  intros Hchat Hmsgs Hin. split.
  - rewrite script_stages. cbv zeta. rewrite Hchat.
    rewrite (display_history_shows _ msgs) by exact Hmsgs.
    rewrite !extend_extend. by destruct Hin as [->| ->].
  - simpl. clear. induction msgs as [|m msgs IH]; simpl; auto.
Qed.

Lemma idle_run_only_shows_witness :
  script breaking_service (Some "") chatting_world =
    (Returns tt,
     extend chatting_world (page_top ++ page_frame ++ shown_history [welcome])) /\
  existsb is_service_call (page_top ++ page_frame ++ shown_history [welcome]) = false.
Proof.
  apply (idle_run_only_shows breaking_service (Some "") chatting_world
           (chat_obj 1) [welcome]); [reflexivity|reflexivity|by right].
Defined.

(** X10: in a session with a chat and a transcript, a run with a
    non-empty input shows the page and the transcript as it was before the
    turn, then handles the input: it returns with the transcript extended
    by the user's entry and the entry sealed from the stream, whether the
    stream completed or failed, and everything else in the session state
    unchanged. *)
Theorem run_with_input service prompt w chat msgs :
  gemini_chat (session_state w) = Some chat ->
  messages (session_state w) = Some msgs ->
  prompt <> "" ->
  let s := send_message_stream service chat prompt in
  script service (Some prompt) w =
    (Returns tt,
     after_turn (extend w (page_top ++ page_frame ++ shown_history msgs))
       msgs prompt (sealed_text s)
       (ev_send_message_stream chat prompt :: stream_shown s)).
Proof.
  intros Hchat Hmsgs Hprompt.
  assert (Htruthy : truthy prompt = true) by (by destruct prompt).
  cbv zeta. rewrite script_stages. cbv zeta. rewrite Hchat.
  rewrite (display_history_shows _ msgs) by exact Hmsgs.
  rewrite !extend_extend, Htruthy.
  by apply handle_with_chat.
Qed.

Lemma run_with_input_witness :
  let s := send_message_stream breaking_service (chat_obj 1) "What is a fever?" in
  script breaking_service (Some "What is a fever?") chatting_world =
    (Returns tt,
     after_turn (extend chatting_world (page_top ++ page_frame ++ shown_history [welcome]))
       [welcome] "What is a fever?" (sealed_text s)
       (ev_send_message_stream (chat_obj 1) "What is a fever?" :: stream_shown s)).
Proof.
  apply (run_with_input breaking_service "What is a fever?" chatting_world
           (chat_obj 1) [welcome]); [reflexivity|reflexivity|discriminate].
Defined.

(** X11: a run in a session without chat and without cached client,
    when the key is configured and the service gives a client and a chat,
    ends with the rerun signal right after the reset: the session state
    holds the client, the chat and the welcome transcript, any earlier
    transcript is gone, nothing of the page below the title is shown, and
    the input of this run, if any, is not handled. *)
Theorem first_run_resets service chat_input w key client chat :
  gemini_chat (session_state w) = None ->
  gemini_client (session_state w) = None ->
  secrets w !! API_KEY_NAME = Some key ->
  genai_Client service key = Returned client ->
  chats_create service client MODEL_NAME SYSTEM_INSTRUCTION = Returned chat ->
  script service chat_input w =
    (Raises RerunException,
     with_session (fresh_session (Some client) chat)
       (extend w (page_top ++ [ev_Client key;
                               ev_chats_create client MODEL_NAME SYSTEM_INSTRUCTION]))).
Proof.
  intros Hchat Hc Hk Hnew Hcreate.
  rewrite script_stages. cbv zeta. rewrite Hchat.
  erewrite reset_chat_completed;
    [|apply get_client_constructed; [exact Hc|exact Hk|exact Hnew]|exact Hcreate].
  unfold with_session, extend. simpl. by rewrite <- !app_assoc.
Qed.

Lemma first_run_resets_witness :
  script answering_service (Some "What is a fever?") (fresh_world with_key) =
    (Raises RerunException,
     with_session (fresh_session (Some (client_obj 1)) (chat_obj 1))
       (extend (fresh_world with_key)
          (page_top ++ [ev_Client "secret";
                        ev_chats_create (client_obj 1) MODEL_NAME SYSTEM_INSTRUCTION]))).
Proof.
  apply (first_run_resets answering_service (Some "What is a fever?")
           (fresh_world with_key) "secret" (client_obj 1) (chat_obj 1)); reflexivity.
Defined.

(** X12: without a transcript in the session state every run ends by
    raising, whatever was submitted, and the input is never appended: the
    transcript is still absent afterwards, unless the run's reset
    succeeded, in which case the run ended with the rerun signal and the
    transcript is the welcome message alone. *)
Theorem run_without_transcript_raises service chat_input w :
  messages (session_state w) = None ->
  exists e w',
    script service chat_input w = (Raises e, w') /\
    (messages (session_state w') = None \/
     e = RerunException /\ messages (session_state w') = Some [welcome]).
Proof.
  intros Hmsgs. rewrite script_stages. cbv zeta.
  destruct (gemini_chat (session_state w)) as [chat|].
  - rewrite display_history_fails by exact Hmsgs. eexists _, _. split; [done|]. by left.
  - destruct (get_client_cases service (extend w page_top))
      as [(client & w1 & Hget & _ & _ & Hm & _)|(evs & Hget & _)].
    + destruct (chats_create service client MODEL_NAME SYSTEM_INSTRUCTION)
        as [chat|detail] eqn:Hnew.
      * rewrite (reset_chat_completed service _ client w1 chat Hget Hnew).
        eexists _, _. split; [done|]. by right.
      * rewrite (reset_chat_create_failed service _ client w1 detail Hget Hnew).
        eexists _, _. split; [done|]. left. simpl. by rewrite Hm.
    + rewrite (reset_chat_no_client service _ _ Hget).
      rewrite display_history_fails by exact Hmsgs.
      eexists _, _. split; [done|]. by left.
Qed.

Lemma run_without_transcript_raises_witness :
  exists e w',
    script answering_service (Some "What is a fever?") (fresh_world ∅) = (Raises e, w') /\
    (messages (session_state w') = None \/
     e = RerunException /\ messages (session_state w') = Some [welcome]).
Proof.
  apply (run_without_transcript_raises answering_service (Some "What is a fever?")
           (fresh_world ∅)). reflexivity.
Defined.

(** ** What every reachable session state looks like *)

Section Shape.

Variable service : Service.

(** A property of session states kept by reset and by the handler is kept
    by every run of the script, however the run ends. *)
Lemma script_preserves (I : SessionState -> Prop) :
  (forall w, I (session_state w) -> I (session_state (snd (reset_chat service w)))) ->
  (forall prompt w, I (session_state w) ->
     I (session_state (snd (handle_user_message service prompt w)))) ->
  forall chat_input w,
    I (session_state w) -> I (session_state (snd (script service chat_input w))).
Proof.
  intros Hreset Hhandle chat_input w Hw. rewrite script_stages. cbv zeta.
  assert (Hfirst : I (session_state (snd
            (match gemini_chat (session_state w) with
             | None => reset_chat service (extend w page_top)
             | Some _ => (Returns tt, extend w page_top)
             end)))).
  { destruct (gemini_chat (session_state w)); [exact Hw|]. by apply Hreset. }
  destruct (match gemini_chat (session_state w) with
            | None => reset_chat service (extend w page_top)
            | Some _ => (Returns tt, extend w page_top)
            end) as [[[]|e] w1]; [|exact Hfirst].
  simpl in Hfirst.
  pose proof (display_history_session (extend w1 page_frame)) as Hd.
  destruct (display_history (extend w1 page_frame)) as [[[]|e] w3]; simpl in Hd.
  - assert (Hw3 : I (session_state w3)) by (by rewrite Hd).
    destruct chat_input as [prompt|]; [|exact Hw3].
    destruct (truthy prompt); [|exact Hw3]. by apply Hhandle.
  - simpl. by rewrite Hd.
Qed.

Lemma conversation_snoc turns prompt reply :
  conversation turns ++ turn prompt reply = conversation (turns ++ [(prompt, reply)]).
Proof.
  unfold conversation. rewrite flat_map_app. reflexivity.
Qed.

Lemma handle_keeps_well_formed prompt w :
  well_formed (session_state w) ->
  well_formed (session_state (snd (handle_user_message service prompt w))).
Proof.
  intros Hw.
  destruct (handle_cases service prompt w)
    as [[Hmsgs ->]|(msgs & reply & shown & Hmsgs & ->)]; [exact Hw|].
  unfold well_formed in *. rewrite Hmsgs in Hw. simpl.
  destruct Hw as (Hchat & Hclient & turns & ->).
  split; [exact Hchat|]. split; [exact Hclient|].
  eexists. apply conversation_snoc.
Qed.

Lemma reset_keeps_well_formed w :
  well_formed (session_state w) ->
  well_formed (session_state (snd (reset_chat service w))).
Proof.
  intros Hw.
  destruct (get_client_cases service w)
    as [(client & w1 & Hget & Hclient & Hchat & Hmsgs & _)|(evs & Hget & _)].
  - destruct (chats_create service client MODEL_NAME SYSTEM_INSTRUCTION)
      as [chat|detail] eqn:Hnew.
    + rewrite (reset_chat_completed service w client w1 chat Hget Hnew).
      unfold well_formed. simpl. rewrite Hclient.
      split; [by eexists|]. split; [by eexists|]. by exists [].
    + rewrite (reset_chat_create_failed service w client w1 detail Hget Hnew).
      unfold well_formed in *. simpl. rewrite Hmsgs, Hchat, Hclient.
      destruct (messages (session_state w)); [|exact Hw].
      destruct Hw as (Hc & _ & Ht). split; [exact Hc|]. split; [by eexists|exact Ht].
  - by rewrite (reset_chat_no_client service w _ Hget).
Qed.

End Shape.

(** X13: in a session that started with empty session state, after any
    number of runs of the script and clicks on the reset button, with any
    inputs and any behaviour of the service, the session state is well
    formed: chat and transcript are present together or absent together, a
    client is cached whenever they are present, and the transcript is the
    welcome message followed by complete turns, each a user entry followed
    by an assistant entry. *)
Theorem reachable_sessions_well_formed service conf w :
  reaches service (fresh_world conf) w ->
  well_formed (session_state w).
Proof.
  induction 1 as [|w1 chat_input _ IH|w1 _ IH].
  - reflexivity.
  - revert IH. apply script_preserves.
    + apply reset_keeps_well_formed.
    + apply handle_keeps_well_formed.
  - by apply reset_keeps_well_formed.
Qed.

Lemma reachable_sessions_well_formed_witness :
  well_formed
    (session_state
       (snd (script answering_service (Some "What is a fever?")
               (snd (script answering_service None (fresh_world with_key)))))).
Proof.
  apply (reachable_sessions_well_formed answering_service with_key).
  apply reaches_run. apply reaches_run. apply reaches_refl.
Defined.

(** The transcript of a well-formed session has an odd number of
    entries: roles alternate after the welcome message. *)
Lemma conversation_length turns : length (conversation turns) = 1 + 2 * length turns.
Proof.
  unfold conversation. simpl. f_equal.
  induction turns as [|t turns IH]; simpl; [done|]. rewrite IH. lia.
Qed.

(** ** What a session ever asks of the service *)

Section Adds.

Variable P : gmap string string -> event -> Prop.

Lemma only_adds_ret {A} (a : A) : only_adds P (ret a).
Proof. intros w. exists []. simpl. by rewrite app_nil_r. Qed.

Lemma only_adds_raise {A} e : only_adds P (@raise A e).
Proof. intros w. exists []. simpl. by rewrite app_nil_r. Qed.

Lemma only_adds_get_session : only_adds P get_session.
Proof. intros w. exists []. simpl. by rewrite app_nil_r. Qed.

Lemma only_adds_put s : only_adds P (put_session s).
Proof. intros w. exists []. simpl. by rewrite app_nil_r. Qed.

Lemma only_adds_emit e : (forall conf, P conf e) -> only_adds P (emit e).
Proof. intros He w. exists [e]. simpl. by repeat constructor. Qed.

Lemma only_adds_bind {A B} (m : M A) (k : A -> M B) :
  only_adds P m -> (forall a, only_adds P (k a)) -> only_adds P (bind m k).
Proof.
  intros Hm Hk w. destruct (Hm w) as (evs1 & Ht1 & HP1 & Hs1). unfold bind.
  destruct (m w) as [[a|e] w1]; simpl in *.
  - destruct (Hk a w1) as (evs2 & Ht2 & HP2 & Hs2).
    exists (evs1 ++ evs2). rewrite Ht2, Ht1, Hs2, Hs1, app_assoc.
    split; [done|]. split; [|done]. apply Forall_app. split; [done|].
    by rewrite <- Hs1.
  - by exists evs1.
Qed.

Lemma only_adds_try {A} (body : M A) (handler : exc -> M A) :
  only_adds P body -> (forall e, only_adds P (handler e)) ->
  only_adds P (try_except body handler).
Proof.
  intros Hm Hk w. destruct (Hm w) as (evs1 & Ht1 & HP1 & Hs1). unfold try_except.
  destruct (body w) as [[a|e] w1]; simpl in *; [by exists evs1|].
  destruct (is_Exception e); [|by exists evs1].
  destruct (Hk e w1) as (evs2 & Ht2 & HP2 & Hs2).
  exists (evs1 ++ evs2). rewrite Ht2, Ht1, Hs2, Hs1, app_assoc.
  split; [done|]. split; [|done]. apply Forall_app. split; [done|].
  by rewrite <- Hs1.
Qed.

Lemma only_adds_for_each {A} (l : list A) (body : A -> M unit) :
  (forall a, only_adds P (body a)) -> only_adds P (for_each l body).
Proof.
  intros Hbody. induction l as [|a l IH]; simpl.
  - apply only_adds_ret.
  - apply only_adds_bind; [apply Hbody|]. intros _. exact IH.
Qed.

End Adds.

Section Permitted.

Variable service : Service.

Lemma get_client_permitted : only_adds permitted (get_gemini_client service).
Proof.
  intros w.
  destruct (gemini_client (session_state w)) as [client|] eqn:Hc.
  - exists []. rewrite (get_client_cached _ _ _ Hc). simpl. by rewrite app_nil_r.
  - destruct (secrets w !! API_KEY_NAME) as [key|] eqn:Hk.
    + destruct (genai_Client service key) as [client|detail] eqn:Hnew.
      * eexists. rewrite (get_client_constructed _ _ _ _ Hc Hk Hnew). simpl.
        split; [done|]. split; [|done]. by repeat constructor.
      * eexists. rewrite (get_client_construction_failed _ _ _ _ Hc Hk Hnew). simpl.
        split; [done|]. split; [|done]. by repeat constructor.
    + eexists. rewrite (get_client_missing_key _ _ Hc Hk). simpl.
      split; [done|]. split; [|done]. by repeat constructor.
Qed.

Ltac adds_step :=
  first
    [ apply only_adds_ret | apply only_adds_raise | apply only_adds_get_session
    | apply only_adds_put | apply get_client_permitted
    | apply only_adds_emit; intros ?; done
    | apply only_adds_bind; [|intros ?]
    | apply only_adds_try; [|intros ?] ].

Lemma reset_chat_permitted : only_adds permitted (reset_chat service).
Proof.
  unfold reset_chat. adds_step; [adds_step|].
  destruct a as [client|].
  - unfold client_chats_create, set_gemini_chat, set_messages, st_rerun.
    repeat adds_step. destruct (chats_create _ _ _ _); adds_step.
  - unfold st_error. repeat adds_step.
Qed.

Lemma messages_append_permitted m : only_adds permitted (messages_append m).
Proof.
  unfold messages_append, get_messages, set_messages. repeat adds_step.
  destruct (messages a); adds_step.
Qed.

Lemma consume_permitted s acc : only_adds permitted (consume s acc).
Proof.
  revert acc. induction s as [|detail|c rest IH]; intros acc; simpl.
  - adds_step.
  - adds_step.
  - unfold placeholder_markdown. adds_step; [adds_step|]. apply IH.
Qed.

Lemma handle_permitted prompt : only_adds permitted (handle_user_message service prompt).
Proof.
  unfold handle_user_message.
  adds_step; [apply messages_append_permitted|].
  unfold chat_message_markdown. adds_step; [adds_step|].
  adds_step; [adds_step|].
  adds_step; [|apply messages_append_permitted].
  destruct (gemini_chat a1) as [chat|].
  - unfold chat_send_message_stream, placeholder_markdown.
    adds_step.
    + adds_step; [repeat adds_step|]. adds_step; [apply consume_permitted|].
      repeat adds_step.
    + repeat adds_step.
  - unfold placeholder_markdown. repeat adds_step.
Qed.

Lemma display_history_permitted : only_adds permitted display_history.
Proof.
  unfold display_history, get_messages. adds_step.
  - adds_step; [adds_step|]. destruct (messages a); adds_step.
  - apply only_adds_for_each. intros m. unfold chat_message_markdown. adds_step.
Qed.

Lemma script_permitted chat_input : only_adds permitted (script service chat_input).
Proof.
  unfold script. adds_step; [adds_step|]. adds_step; [adds_step|].
  adds_step; [adds_step|]. adds_step.
  { destruct (gemini_chat a1); [adds_step|apply reset_chat_permitted]. }
  adds_step; [adds_step|]. adds_step; [adds_step|].
  adds_step; [apply display_history_permitted|].
  destruct chat_input as [prompt|]; [|adds_step].
  destruct (truthy prompt); [apply handle_permitted|adds_step].
Qed.

End Permitted.

(** X14: in a session that started under the configuration [conf] with
    nothing shown, whatever the runs, clicks, inputs and the service do,
    the module never changes the configuration, constructs a client only
    with the key configured under [GEMINI_API_KEY], and creates every chat
    with the model [gemini-2.5-flash] and the safety system instruction. *)
Theorem requests_are_permitted service conf w :
  reaches service (fresh_world conf) w ->
  secrets w = conf /\ Forall (permitted conf) (trace w).
Proof.
  induction 1 as [|w1 chat_input _ [Hs IH]|w1 _ [Hs IH]].
  - split; [done|]. constructor.
  - destruct (script_permitted service chat_input w1) as (evs & Ht & HP & Hs').
    rewrite Ht, Hs', Hs. split; [done|]. apply Forall_app. split; [done|].
    by rewrite <- Hs.
  - destruct (reset_chat_permitted service w1) as (evs & Ht & HP & Hs').
    rewrite Ht, Hs', Hs. split; [done|]. apply Forall_app. split; [done|].
    by rewrite <- Hs.
Qed.

Lemma requests_are_permitted_witness :
  let w := snd (script answering_service (Some "What is a fever?")
                  (snd (script answering_service None (fresh_world with_key)))) in
  secrets w = with_key /\ Forall (permitted with_key) (trace w).
Proof.
  apply (requests_are_permitted answering_service with_key).
  apply reaches_run. apply reaches_run. apply reaches_refl.
Defined.
